(** * The Metropolis sampler of [mc.ipynb]

    The notebook defines one sampler of its own,

<<
    def metropolis(p,q,x_init,n):
        x = x_init
        samples = []
        rejected = [] # we only keep the rejected samples to plot them later
        for i in range(n):
            x_prime = x + q()
            if p(x_prime)>p(x):
                x = x_prime
                samples.append(x_prime)
            else:
                pa = p(x_prime)/p(x)
                if np.random.uniform(0,1)<pa:
                    x = x_prime
                    samples.append(x_prime)
                else:
                    rejected.append(x_prime)
        return np.array(samples), np.array(rejected)
>>

    and otherwise calls PyMC.  The densities [p] returns are numpy
    [float64] scalars: they are modelled by the IEEE 754 binary64
    specification of the Standard Library ([SpecFloat], precision 53,
    [emax] 1024), so that zero densities, infinities and NaN behave as they
    do in numpy ([0/0] is NaN and every comparison with NaN is false; a
    division by zero warns, it does not raise); [Raising] has the pass for
    densities that are Python floats, whose division raises on a zero
    divisor.  The generator behind [q()] and [np.random.uniform] is
    numpy's global one: it is threaded through the model as an explicit
    state. *)

From Stdlib Require Import ZArith List Bool Lia Permutation.
From Stdlib Require Import Floats.SpecFloat.
Import ListNotations.

Local Open Scope Z_scope.

(** ** numpy [float64] scalars *)

Module Float64.

Definition prec : Z := 53.
Definition emax : Z := 1024.

Definition float64 : Type := spec_float.

(** [a / b], [a + b], [a < b], [a > b], [a >= b], [a <= b] on float64. *)
Definition truediv : float64 -> float64 -> float64 := SFdiv prec emax.
Definition add : float64 -> float64 -> float64 := SFadd prec emax.
Definition lt (a b : float64) : bool := SFltb a b.
Definition gt (a b : float64) : bool := SFltb b a.
Definition ge (a b : float64) : bool := SFleb b a.
Definition le (a b : float64) : bool := SFleb a b.

(** [m * 2**e], correctly rounded: how the literals below are built. *)
Definition of_scaled (m e : Z) : float64 :=
  binary_normalize prec emax m e false.

Definition zero : float64 := S754_zero false.
Definition one : float64 := Eval vm_compute in of_scaled 1 0.
Definition nan : float64 := S754_nan.

Definition is_zero (a : float64) : bool :=
  match a with S754_zero _ => true | _ => false end.

Definition is_nan (a : float64) : bool :=
  match a with S754_nan => true | _ => false end.

(** Finite and not zero. *)
Definition is_finite_nonzero (a : float64) : bool :=
  match a with S754_finite _ _ _ => true | _ => false end.

(** Strictly positive: a positive finite number or [+inf]. *)
Definition is_positive (a : float64) : bool :=
  match a with
  | S754_finite false _ _ | S754_infinity false => true
  | _ => false
  end.

(** What a density may return: anything that is not below zero. *)
Definition is_density (a : float64) : bool := negb (lt a zero).

(** The range of [np.random.uniform(0,1)]: [0 <= u < 1]. *)
Definition in_unit (u : float64) : bool := le zero u && lt u one.

End Float64.

Import Float64.

(** ** The global generator as a state *)

Section Rand.

Context {rng : Type}.

(** A computation that may draw from the generator. *)
Definition Rand (A : Type) : Type := rng -> A * rng.

Definition ret {A} (a : A) : Rand A := fun g => (a, g).

Definition bind {A B} (c : Rand A) (k : A -> Rand B) : Rand B :=
  fun g => let (a, g') := c g in k a g'.

End Rand.

Arguments Rand : clear implicits.

Declare Scope rand_scope.
Delimit Scope rand_scope with rand.
Notation "v <- c ;; k" := (bind c (fun v => k))
(at level 61, c at next level, right associativity) : rand_scope.

(** ** [metropolis] *)

Module MC.

Section Metropolis.

(** Positions (what [x + q()] yields), with their addition. *)
Context {V : Type} {rng : Type}.
Variable vadd : V -> V -> V.

(** The arguments [p] and [q], and [np.random.uniform(0,1)]. *)
Variable p : V -> float64.
Variable q : Rand rng V.
Variable uniform : Rand rng float64.

(** The local variables the loop updates. *)
Record locals : Type := Locals {
  x : V;
  samples : list V;
  rejected : list V
}.

(** [x = x_prime; samples.append(x_prime)] *)
Definition jump (l : locals) (x_prime : V) : locals :=
  {| x := x_prime; samples := samples l ++ [x_prime]; rejected := rejected l |}.

(** [rejected.append(x_prime)] *)
Definition stay (l : locals) (x_prime : V) : locals :=
  {| x := x l; samples := samples l; rejected := rejected l ++ [x_prime] |}.

(** One pass through the body of [for i in range(n)]. *)
Definition body (l : locals) : Rand rng locals :=
  (d <- q ;;
   let x_prime := vadd (x l) d in
   if gt (p x_prime) (p (x l)) then
     ret (jump l x_prime)
   else
     let pa := truediv (p x_prime) (p (x l)) in
     u <- uniform ;;
     if lt u pa then ret (jump l x_prime)
     else ret (stay l x_prime))%rand.

Fixpoint loop (k : nat) (l : locals) : Rand rng locals :=
  match k with
  | O => ret l
  | S k' => (l' <- body l ;; loop k' l')%rand
  end.

(** [range(n)] is empty for [n <= 0]. *)
Definition metropolis (x_init : V) (n : Z) : Rand rng (list V * list V) :=
  (l <- loop (Z.to_nat n) {| x := x_init; samples := []; rejected := [] |} ;;
   ret (samples l, rejected l))%rand.

(** *** What one pass decides

    The quantities of one pass, as functions of the locals and of the
    generator state the pass starts in. *)

(** [x_prime]. *)
Definition candidate (l : locals) (g : rng) : V := vadd (x l) (fst (q g)).

(** The test [p(x_prime)>p(x)]. *)
Definition better (l : locals) (g : rng) : bool :=
  gt (p (candidate l g)) (p (x l)).

(** [pa]: the division is evaluated only where the first test fails. *)
Definition pa (l : locals) (g : rng) : float64 :=
  truediv (p (candidate l g)) (p (x l)).

(** The value [np.random.uniform(0,1)] returns when it is called. *)
Definition drawn (g : rng) : float64 := fst (uniform (snd (q g))).

(** Whether the pass moves to the candidate. *)
Definition accepts (l : locals) (g : rng) : bool :=
  if better l g then true else lt (drawn g) (pa l g).

(** The candidates of [k] passes, each with its decision. *)
Fixpoint history (k : nat) (l : locals) (g : rng) : list (V * bool) :=
  match k with
  | O => []
  | S k' =>
      (candidate l g, accepts l g)
        :: history k' (fst (body l g)) (snd (body l g))
  end.

Definition accepted_of (h : list (V * bool)) : list V :=
  map fst (filter snd h).

Definition rejected_of (h : list (V * bool)) : list V :=
  map fst (filter (fun c => negb (snd c)) h).

End Metropolis.

End MC.

Import MC.

(** ** A concrete setting: scalar positions, draws read off a tape *)

Module Demo.

(** The generator as the sequence of the numbers it is going to return;
    [q()] and [np.random.uniform(0,1)] both read the next one. *)
Definition tape : Type := list float64.

Definition draw : Rand tape float64 :=
  fun t => match t with
           | [] => (zero, [])
           | a :: t' => (a, t')
           end.

Definition quarter : float64 := Eval vm_compute in of_scaled 1 (-2).
Definition half : float64 := Eval vm_compute in of_scaled 1 (-1).
Definition two : float64 := Eval vm_compute in of_scaled 2 0.
Definition three : float64 := Eval vm_compute in of_scaled 3 0.

(** The density of the uniform distribution on [[0, 1)]: zero out of its
    support. *)
Definition p_unit (v : float64) : float64 :=
  if in_unit v then one else zero.

(** A density with two levels: [1] on [[0, 1)], [1/2] on [[1, 2)], zero
    elsewhere. *)
Definition p_steps (v : float64) : float64 :=
  if in_unit v then one
  else if le one v && lt v two then half
  else zero.

Definition start (x_init : float64) : locals :=
  {| x := x_init; samples := []; rejected := [] |}.

Definition run (p : float64 -> float64) (x_init : float64) (n : Z)
  : Rand tape (list float64 * list float64) :=
  metropolis add p draw draw x_init n.

(** A generator with state the draws do not depend on: a position in a
    fixed cycle of numbers, and a count of calls. *)
Definition counter : Type := (nat * nat)%type.

Definition cycle (i : nat) : float64 :=
  match Nat.modulo i 3 with
  | O => quarter
  | S O => half
  | _ => zero
  end.

Definition tick : Rand counter float64 :=
  fun g => (cycle (fst g), (S (fst g), S (S (snd g)))).

End Demo.

(** ** Paths of proposals *)

Module Walk.

Section Path.

Context {V : Type} {rng : Type}.
Variable vadd : V -> V -> V.
Variable q : Rand rng V.

(** [b] is what [a + q()] can yield. *)
Definition proposal_from (a b : V) : Prop :=
  exists g : rng, b = vadd a (fst (q g)).

(** Each position of [s] is a proposal from the one before it, the first
    from [a]. *)
Fixpoint path (a : V) (s : list V) : Prop :=
  match s with
  | [] => True
  | b :: s' => proposal_from a b /\ path b s'
  end.

End Path.

End Walk.

Import Walk.

(** ** More densities to run on *)

Module Cases.

Import Demo.

(** The same value everywhere: an unnormalised flat density. *)
Definition p_flat (v : float64) : float64 := half.

(** Defined on [[0, 1)] only: NaN elsewhere, as [0/0] or the logarithm of
    a negative number would give. *)
Definition p_partial (v : float64) : float64 :=
  if in_unit v then one else nan.

End Cases.

(** ** Counting the calls of the generator *)

Module Count.

Section Counting.

Context {A : Type} {rng : Type}.

(** A generator state with the numbers of calls of [q] and of
    [np.random.uniform] made so far. *)
Definition counted : Type := (rng * (nat * nat))%type.

Definition calls_q (s : counted) : nat := fst (snd s).
Definition calls_uniform (s : counted) : nat := snd (snd s).

(** [c], counted as a call of [q]. *)
Definition as_q (c : Rand rng A) : Rand counted A :=
  fun s => (fst (c (fst s)),
            (snd (c (fst s)), (S (calls_q s), calls_uniform s))).

(** [c], counted as a call of [np.random.uniform]. *)
Definition as_uniform (c : Rand rng A) : Rand counted A :=
  fun s => (fst (c (fst s)),
            (snd (c (fst s)), (calls_q s, S (calls_uniform s)))).

End Counting.

Arguments counted : clear implicits.

End Count.

Import Count.

(** ** The imputation cell

<<
    y_impute = y[:]
    y_impute[-3:] = 0
    y_impute = ma.masked_equal(y_impute,0)
>>

    [y] is a numpy array.  An array shows a buffer; the slice [y[:]] is a
    second array on the buffer of [y], so that the assignment to its last
    three entries writes into the data of [y].  [ma.masked_equal] copies
    the data into a buffer of its own and masks the entries equal to
    zero. *)

Module Imputation.

Definition heap : Type := list (list float64).

Record ndarray : Type := Array { buffer : nat }.

Record masked_array : Type := Masked { data : ndarray; mask : list bool }.

(** What an array shows. *)
Definition contents (h : heap) (a : ndarray) : list float64 :=
  nth (buffer a) h [].

Fixpoint store (h : heap) (i : nat) (b : list float64) : heap :=
  match h, i with
  | [], _ => []
  | _ :: h', O => b :: h'
  | c :: h', S i' => c :: store h' i' b
  end.

(** [a[:]] *)
Definition full_slice (a : ndarray) : ndarray := {| buffer := buffer a |}.

(** [l[-3:] = 0] on the entries: the last three, all of them when there
    are fewer. *)
Definition zero_last3 (l : list float64) : list float64 :=
  firstn (length l - 3) l ++ repeat zero (length l - (length l - 3)).

(** [a[-3:] = 0] *)
Definition assign_last3 (h : heap) (a : ndarray) : heap :=
  store h (buffer a) (zero_last3 (contents h a)).

(** [ma.masked_equal(a, 0)] *)
Definition masked_equal_0 (h : heap) (a : ndarray) : heap * masked_array :=
  (h ++ [contents h a],
   {| data := {| buffer := length h |};
      mask := map (fun v => SFeqb v zero) (contents h a) |}).

(** The three lines, from a heap in which [y] is allocated: the heap
    after them and the masked array bound to [y_impute]. *)
Definition impute (h : heap) (y : ndarray) : heap * masked_array :=
  let y_impute := full_slice y in
  let h1 := assign_last3 h y_impute in
  masked_equal_0 h1 y_impute.

(** The number of masked entries. *)
Definition count_masked (m : list bool) : nat := length (filter id m).

End Imputation.

(** ** The data of the mixture model

<<
    v = np.random.randint( 0, n, ndata)
    data = (v==0)*(np.random.normal(50,5,ndata))
           + (v==1)*(np.random.normal(-50,5,ndata))
           + (v==2)*np.random.normal(0,5,ndata)
>>

    with [n = 3]: the products and sums are taken entry by entry, a
    boolean entry counting as [1.0] or [0.0]. *)

Module Mixture.

Definition mul : float64 -> float64 -> float64 := SFmul prec emax.

Definition of_bool (b : bool) : float64 := if b then one else zero.

(** One entry of [data], from the entry of [v] and of the three arrays of
    draws at the same place. *)
Definition entry (v : Z) (a b c : float64) : float64 :=
  add (add (mul (of_bool (v =? 0)) a) (mul (of_bool (v =? 1)) b))
      (mul (of_bool (v =? 2)) c).

(** [data], for arrays of one common length. *)
Fixpoint data (v : list Z) (a b c : list float64) : list float64 :=
  match v, a, b, c with
  | vi :: v', ai :: a', bi :: b', ci :: c' =>
      entry vi ai bi ci :: data v' a' b' c'
  | _, _, _, _ => []
  end.

(** The draw the label picks. *)
Definition picked (v : Z) (a b c : float64) : float64 :=
  if v =? 0 then a else if v =? 1 then b else c.

Fixpoint picks (v : list Z) (a b c : list float64) : list float64 :=
  match v, a, b, c with
  | vi :: v', ai :: a', bi :: b', ci :: c' =>
      picked vi ai bi ci :: picks v' a' b' c'
  | _, _, _, _ => []
  end.

(** A float64 as [np.random.normal] returns it: finite, not zero, in
    canonical form. *)
Definition is_draw (a : float64) : bool :=
  is_finite_nonzero a && valid_binary prec emax a.

End Mixture.

(** ** Densities as Python floats

    [metropolis] does not fix the kind of number [p] returns.  Python's
    own [float] compares and divides as float64 does, except on a zero
    divisor: numpy yields an infinity or NaN and warns, Python raises
    [ZeroDivisionError]. *)

Module Raising.

Inductive scalar : Type :=
| Float64   (* numpy.float64, what the notebook's [p] returns *)
| PyFloat.  (* Python's float *)

(** [a / b]; [None] when it raises. *)
Definition quotient (k : scalar) (a b : float64) : option float64 :=
  match k with
  | Float64 => Some (truediv a b)
  | PyFloat => if is_zero b then None else Some (truediv a b)
  end.

Section Body.

Context {V : Type} {rng : Type}.
Variable vadd : V -> V -> V.
Variable p : V -> float64.
Variable q : Rand rng V.
Variable uniform : Rand rng float64.
Variable k : scalar.

(** One pass through the body of the loop, [None] when the division
    raises: nothing catches the exception, it ends the run. *)
Definition body (l : locals) (g : rng) : option (locals * rng) :=
  let (d, g1) := q g in
  let x_prime := vadd (x l) d in
  if gt (p x_prime) (p (x l)) then
    Some (jump l x_prime, g1)
  else
    match quotient k (p x_prime) (p (x l)) with
    | None => None
    | Some pa =>
        let (u, g2) := uniform g1 in
        if lt u pa then Some (jump l x_prime, g2)
        else Some (stay l x_prime, g2)
    end.

End Body.

End Raising.

(** ** Facts about float64 comparisons and division *)

Section Float64Facts.

(** Euclidean division at the heart of [a / a]. *)
Lemma div_eucl_scaled (m : positive) :
  Z.div_eucl (Z.pos m * 2 ^ 53) (Z.pos m) = (2 ^ 53, 0).
Proof.
  pose proof (Z.div_eucl_eq (Z.pos m * 2 ^ 53) (Z.pos m) ltac:(lia)) as E.
  pose proof (Z.mod_pos_bound (Z.pos m * 2 ^ 53) (Z.pos m) ltac:(lia)) as B.
  unfold Z.modulo in B.
  destruct (Z.div_eucl (Z.pos m * 2 ^ 53) (Z.pos m)) as [q0 r0].
  assert (Z.pos m * (2 ^ 53 - q0) = r0) as Hr by lia.
  assert (2 ^ 53 - q0 = 0) as Hq by nia.
  f_equal; nia.
Qed.

Lemma div_core_self (m : positive) (e : Z) :
  SFdiv_core_binary prec emax (Z.pos m) e (Z.pos m) e
  = (2 ^ 53, -53, loc_Exact).
Proof.
  unfold SFdiv_core_binary.
  replace (Zdigits2 (Z.pos m) + e - (Zdigits2 (Z.pos m) + e)) with 0 by lia.
  replace (e - e) with 0 by lia.
  change (Z.min (fexp prec emax 0) 0) with (-53).
  change (0 - -53) with 53.
  cbv iota beta.
  rewrite Z.shiftl_mul_pow2 by lia.
  rewrite div_eucl_scaled.
  unfold new_location, new_location_even, new_location_odd.
  destruct (Z.even (Z.pos m)); reflexivity.
Qed.

(** A finite nonzero number divided by itself is exactly [1.0]. *)
Lemma truediv_self (s : bool) (m : positive) (e : Z) :
  truediv (S754_finite s m e) (S754_finite s m e) = one.
Proof.
  unfold truediv, SFdiv.
  rewrite div_core_self, xorb_nilpotent.
  vm_compute. reflexivity.
Qed.

(** [a >= b] without [a > b], for [a] finite and not zero: the same
    number. *)
Lemma ge_not_gt_finite (a b : float64) :
  is_finite_nonzero a = true -> ge a b = true -> gt a b = false -> b = a.
Proof.
  unfold ge, gt, SFleb, SFltb.
  destruct a as [sa|sa| |sa ma ea]; try discriminate.
  intros _.
  destruct b as [sb|sb| |sb mb eb]; simpl;
    try (destruct sa; discriminate);
    try (destruct sb; discriminate).
  destruct sb, sa; try discriminate;
    destruct (Z.compare_spec eb ea) as [He|He|He]; try discriminate;
    destruct (Pos.compare_cont Eq mb ma) eqn:Hm; try discriminate;
    intros _ _; apply Pos.compare_eq in Hm; congruence.
Qed.

(** A zero density is not above any density. *)
Lemma zero_not_above_density (a b : float64) :
  is_zero a = true -> is_density b = true -> gt a b = false.
Proof.
  unfold is_density, gt, lt, SFltb.
  destruct a as [sa|sa| |sa ma ea]; try discriminate.
  intros _.
  destruct b as [sb|sb| |sb mb eb]; simpl; try reflexivity;
    destruct sb; simpl; congruence.
Qed.

(** Zero divided by anything is a zero or NaN. *)
Lemma truediv_zero_l (a b : float64) :
  is_zero a = true -> is_zero (truediv a b) || is_nan (truediv a b) = true.
Proof.
  destruct a as [sa|sa| |sa ma ea]; try discriminate.
  intros _. destruct b; reflexivity.
Qed.

(** No draw of the unit interval is below a zero or below NaN. *)
Lemma lt_zero_or_nan (u r : float64) :
  le zero u = true -> is_zero r || is_nan r = true -> lt u r = false.
Proof.
  unfold le, lt, SFleb, SFltb.
  destruct r as [sr|sr| |sr mr er]; try discriminate; intros Hu _.
  - destruct u as [su|su| |su mu eu]; simpl in *; try reflexivity;
      destruct su; simpl in *; congruence.
  - destruct u; reflexivity.
Qed.

Lemma in_unit_le (u : float64) : in_unit u = true -> le zero u = true.
Proof. unfold in_unit. intros H. apply andb_prop in H. tauto. Qed.

Lemma in_unit_lt (u : float64) : in_unit u = true -> lt u one = true.
Proof. unfold in_unit. intros H. apply andb_prop in H. tauto. Qed.

(** A strictly positive density is above a zero one. *)
Lemma positive_above_zero (a b : float64) :
  is_positive a = true -> is_zero b = true -> gt a b = true.
Proof.
  destruct b as [sb|sb| |sb mb eb]; try discriminate.
  destruct a as [sa|sa| |sa ma ea]; try discriminate;
    destruct sa; try discriminate; reflexivity.
Qed.

End Float64Facts.

(** ** One pass of the loop *)

Section PassFacts.

Context {V : Type} {rng : Type}.
Variable vadd : V -> V -> V.
Variable p : V -> float64.
Variable q : Rand rng V.
Variable uniform : Rand rng float64.

Local Abbreviation body := (MC.body vadd p q uniform).
Local Abbreviation candidate := (MC.candidate vadd q).
Local Abbreviation better := (MC.better vadd p q).
Local Abbreviation pa := (MC.pa vadd p q).
Local Abbreviation drawn := (MC.drawn q uniform).
Local Abbreviation accepts := (MC.accepts vadd p q uniform).

(** The first test succeeds: the pass jumps, and only [q] has drawn. *)
Lemma body_better (l : locals) (g : rng) :
  better l g = true ->
  body l g = (jump l (candidate l g), snd (q g)).
Proof.
  unfold MC.better, MC.candidate, MC.body, bind, ret.
  destruct (q g) as [d g1]; simpl. intros ->. reflexivity.
Qed.

(** The first test fails: one uniform number is drawn and compared with
    [pa]. *)
Lemma body_not_better (l : locals) (g : rng) :
  better l g = false ->
  body l g =
    ((if lt (drawn g) (pa l g) then jump l (candidate l g)
      else stay l (candidate l g)),
     snd (uniform (snd (q g)))).
Proof.
  unfold MC.better, MC.pa, MC.drawn, MC.candidate, MC.body, bind, ret.
  destruct (q g) as [d g1]; simpl. intros ->.
  destruct (uniform g1) as [u g2]; simpl.
  destruct (lt u _); reflexivity.
Qed.

Lemma body_accepts (l : locals) (g : rng) :
  accepts l g = true -> fst (body l g) = jump l (candidate l g).
Proof.
  unfold MC.accepts. destruct (better l g) eqn:Hb; intros Ha.
  - rewrite body_better by assumption. reflexivity.
  - rewrite body_not_better by assumption. simpl. rewrite Ha. reflexivity.
Qed.

Lemma body_rejects (l : locals) (g : rng) :
  accepts l g = false -> fst (body l g) = stay l (candidate l g).
Proof.
  unfold MC.accepts. destruct (better l g) eqn:Hb; intros Ha.
  - discriminate.
  - rewrite body_not_better by assumption. simpl. rewrite Ha. reflexivity.
Qed.

Lemma body_cases (l : locals) (g : rng) :
  fst (body l g) =
    if accepts l g then jump l (candidate l g) else stay l (candidate l g).
Proof.
  destruct (accepts l g) eqn:Ha;
    [apply body_accepts | apply body_rejects]; assumption.
Qed.

(** What a pass records is the current position plus the noise [q]
    returned, in one of the two lists; the noise does not depend on the
    position, and nothing but the locals and the generator changes. *)
Lemma pass_records_candidate (l : locals) (g : rng) :
  candidate l g = vadd (x l) (fst (q g))
  /\ ((samples (fst (body l g)) = samples l ++ [candidate l g]
       /\ rejected (fst (body l g)) = rejected l)
      \/ (samples (fst (body l g)) = samples l
          /\ rejected (fst (body l g)) = rejected l ++ [candidate l g])).
Proof.
  split; [reflexivity|]. rewrite body_cases.
  destruct (accepts l g); [left | right]; split; reflexivity.
Qed.

(** A candidate of zero density, from a state whose density is not
    negative, with a draw that is not negative: the pass stays. *)
Lemma zero_candidate_stays (l : locals) (g : rng) :
  is_zero (p (candidate l g)) = true ->
  is_density (p (x l)) = true ->
  le zero (drawn g) = true ->
  better l g = false /\ accepts l g = false.
Proof.
  intros Hz Hd Hu.
  assert (Hb : better l g = false)
    by (apply zero_not_above_density; assumption).
  split; [assumption|].
  unfold MC.accepts. rewrite Hb.
  apply lt_zero_or_nan; [assumption|].
  apply truediv_zero_l; assumption.
Qed.

(** A candidate at least as dense as the current state, of finite nonzero
    density, with a draw below one: the pass jumps. *)
Lemma no_worse_candidate_jumps (l : locals) (g : rng) :
  ge (p (candidate l g)) (p (x l)) = true ->
  is_finite_nonzero (p (candidate l g)) = true ->
  lt (drawn g) one = true ->
  accepts l g = true.
Proof.
  intros Hge Hfin Hu. unfold MC.accepts.
  destruct (better l g) eqn:Hb; [reflexivity|].
  unfold MC.pa.
  rewrite (ge_not_gt_finite _ _ Hfin Hge Hb).
  destruct (p (candidate l g)) as [s|s| |s m e]; try discriminate.
  rewrite truediv_self. assumption.
Qed.

(** Both densities zero: the quotient is NaN. *)
Lemma pa_zero_zero (l : locals) (g : rng) :
  is_zero (p (candidate l g)) = true -> is_zero (p (x l)) = true ->
  pa l g = nan.
Proof.
  unfold MC.pa.
  destruct (p (candidate l g)); try discriminate.
  destruct (p (x l)); try discriminate. reflexivity.
Qed.

End PassFacts.

(** ** The whole loop *)

(** Splitting a list of decided candidates loses and adds nothing. *)
Lemma split_lengths {V : Type} (h : list (V * bool)) :
  (length (accepted_of h) + length (rejected_of h) = length h)%nat.
Proof.
  unfold accepted_of, rejected_of. rewrite !length_map.
  induction h as [|[v b] h IH]; simpl; [reflexivity|].
  destruct b; simpl; lia.
Qed.

Lemma split_permutation {V : Type} (h : list (V * bool)) :
  Permutation (accepted_of h ++ rejected_of h) (map fst h).
Proof.
  unfold accepted_of, rejected_of.
  induction h as [|[v b] h IH]; simpl; [constructor|].
  destruct b; simpl.
  - constructor. exact IH.
  - symmetry. apply Permutation_cons_app. symmetry. exact IH.
Qed.

Lemma last_cons {V : Type} (l : list V) (a d : V) :
  last (a :: l) d = last l a.
Proof.
  revert a d. induction l as [|b l IH]; intros a d; [reflexivity|].
  change (last (a :: b :: l) d) with (last (b :: l) d).
  now rewrite !IH.
Qed.

Lemma accepted_at_most {V : Type} (h : list (V * bool)) :
  (length (accepted_of h) <= length h)%nat.
Proof. pose proof (split_lengths h). lia. Qed.

Section RunFacts.

Context {V : Type} {rng : Type}.
Variable vadd : V -> V -> V.
Variable p : V -> float64.
Variable q : Rand rng V.
Variable uniform : Rand rng float64.

Local Abbreviation body := (MC.body vadd p q uniform).
Local Abbreviation loop := (MC.loop vadd p q uniform).
Local Abbreviation candidate := (MC.candidate vadd q).
Local Abbreviation accepts := (MC.accepts vadd p q uniform).
Local Abbreviation history := (MC.history vadd p q uniform).
Local Abbreviation metropolis := (MC.metropolis vadd p q uniform).

Lemma loop_succ (k : nat) (l : locals) (g : rng) :
  loop (S k) l g = loop k (fst (body l g)) (snd (body l g)).
Proof.
  simpl. unfold bind. destruct (body l g) as [l' g']. reflexivity.
Qed.

Lemma history_length (k : nat) (l : locals) (g : rng) :
  length (history k l g) = k.
Proof.
  revert l g. induction k as [|k IH]; intros l g; simpl;
    [reflexivity | now rewrite IH].
Qed.

(** The two lists after [k] passes: what they held, then the candidates
    of the passes that jumped, respectively stayed, in order. *)
Lemma loop_lists (k : nat) (l : locals) (g : rng) :
  samples (fst (loop k l g)) = samples l ++ accepted_of (history k l g)
  /\ rejected (fst (loop k l g)) = rejected l ++ rejected_of (history k l g).
Proof.
  revert l g. induction k as [|k IH]; intros l g.
  - simpl. now rewrite !app_nil_r.
  - rewrite loop_succ.
    destruct (IH (fst (body l g)) (snd (body l g))) as [Hs Hr].
    rewrite Hs, Hr. cbn [MC.history].
    rewrite (body_cases vadd p q uniform l g).
    unfold accepted_of, rejected_of.
    destruct (accepts l g); cbn [filter map fst snd negb jump stay
      samples rejected]; rewrite <- ?app_assoc; split; reflexivity.
Qed.

(** The current position after [k] passes: the last candidate jumped to,
    the initial position when there is none. *)
Lemma loop_position (k : nat) (l : locals) (g : rng) :
  x (fst (loop k l g)) = last (accepted_of (history k l g)) (x l).
Proof.
  revert l g. induction k as [|k IH]; intros l g.
  - reflexivity.
  - rewrite loop_succ, IH. cbn [MC.history].
    rewrite (body_cases vadd p q uniform l g).
    unfold accepted_of.
    destruct (accepts l g); cbn [filter map fst snd jump stay x];
      [|reflexivity].
    now rewrite last_cons.
Qed.

Lemma metropolis_lists (x_init : V) (n : Z) (g : rng) :
  fst (metropolis x_init n g)
  = (accepted_of (history (Z.to_nat n) (Locals x_init [] []) g),
     rejected_of (history (Z.to_nat n) (Locals x_init [] []) g)).
Proof.
  unfold MC.metropolis, bind, ret.
  pose proof (loop_lists (Z.to_nat n) (Locals x_init [] []) g) as [Hs Hr].
  destruct (loop _ _ g) as [l' g']. simpl in *. now rewrite Hs, Hr.
Qed.

End RunFacts.

(** ** The acceptance rule *)

Section AcceptanceRule.

Context {V : Type} {rng : Type}.
Variable vadd : V -> V -> V.
Variable p : V -> float64.
Variable q : Rand rng V.
Variable uniform : Rand rng float64.

Local Abbreviation body := (MC.body vadd p q uniform).
Local Abbreviation candidate := (MC.candidate vadd q).
Local Abbreviation better := (MC.better vadd p q).
Local Abbreviation pa := (MC.pa vadd p q).
Local Abbreviation drawn := (MC.drawn q uniform).
Local Abbreviation accepts := (MC.accepts vadd p q uniform).

(** C1.  The sampler compares densities, not their logarithms:
    [ld_after >= ld_before] is [p(x_prime) >= p(x)] and
    [exp(ld_after - ld_before)] is the quotient [pa = p(x_prime)/p(x)].
    "With probability 1" is: whatever the uniform draw in [[0, 1)].
    - A candidate at least as dense as the current position, of finite
      log-density (a candidate of density zero is the edge case of C4), is
      accepted whatever the draw: [x] becomes the candidate and the
      candidate is appended to [samples].
    - A candidate that is strictly denser is accepted at once and only [q]
      has drawn.
    - Otherwise exactly one uniform number is drawn, and the candidate is
      accepted when that number is below [pa] and rejected when it is
      not. *)
Theorem acceptance_rule (l : locals) (g : rng) :
  let x_prime := vadd (x l) (fst (q g)) in
  let u := fst (uniform (snd (q g))) in
  let after := fst (body l g) in
  (in_unit u = true ->
   ge (p x_prime) (p (x l)) = true ->
   is_finite_nonzero (p x_prime) = true ->
   x after = x_prime
   /\ samples after = samples l ++ [x_prime]
   /\ rejected after = rejected l)
  /\ (gt (p x_prime) (p (x l)) = true ->
      x after = x_prime
      /\ samples after = samples l ++ [x_prime]
      /\ rejected after = rejected l
      /\ snd (body l g) = snd (q g))
  /\ (gt (p x_prime) (p (x l)) = false ->
      snd (body l g) = snd (uniform (snd (q g)))
      /\ (lt u (truediv (p x_prime) (p (x l))) = true ->
          x after = x_prime
          /\ samples after = samples l ++ [x_prime]
          /\ rejected after = rejected l)
      /\ (lt u (truediv (p x_prime) (p (x l))) = false ->
          x after = x l
          /\ samples after = samples l
          /\ rejected after = rejected l ++ [x_prime])).
Proof.
  cbv zeta. split; [|split].
  - intros Hu Hge Hfin.
    rewrite (body_accepts vadd p q uniform l g)
      by (apply no_worse_candidate_jumps; auto using in_unit_lt).
    repeat split.
  - intros Hb. rewrite (body_better vadd p q uniform l g Hb). repeat split.
  - intros Hb. rewrite (body_not_better vadd p q uniform l g Hb).
    cbn [fst snd]. split; [reflexivity|].
    unfold MC.drawn, MC.pa, MC.candidate.
    split; intros ->; repeat split.
Qed.

(** C4.  From a position of zero density (log-density [-inf]), a
    candidate of strictly positive density is always accepted, at once:
    [x] becomes the candidate and the candidate is appended to [samples].
    A candidate of zero density is never accepted, whatever the density
    of the current position (any float64 that is not negative, NaN
    included) and whatever the uniform draw in [[0, 1)]: [x] and [samples]
    stay as they are and the candidate is appended to [rejected]. *)
Theorem impossible_positions (l : locals) (g : rng) :
  let x_prime := vadd (x l) (fst (q g)) in
  let u := fst (uniform (snd (q g))) in
  let after := fst (body l g) in
  (is_zero (p (x l)) = true -> is_positive (p x_prime) = true ->
   x after = x_prime
   /\ samples after = samples l ++ [x_prime]
   /\ rejected after = rejected l
   /\ snd (body l g) = snd (q g))
  /\ (is_zero (p x_prime) = true ->
      is_density (p (x l)) = true ->
      in_unit u = true ->
      x after = x l
      /\ samples after = samples l
      /\ rejected after = rejected l ++ [x_prime]).
Proof.
  cbv zeta. split.
  - intros Hz Hp.
    assert (Hb : better l g = true) by (apply positive_above_zero; assumption).
    rewrite (body_better vadd p q uniform l g Hb). repeat split.
  - intros Hz Hd Hu.
    destruct (zero_candidate_stays vadd p q uniform l g Hz Hd
                (in_unit_le _ Hu)) as [_ Ha].
    rewrite (body_rejects vadd p q uniform l g Ha). repeat split.
Qed.

(** C3.  A pass that rejects its candidate leaves the current position as
    it was, the very same float64 values, and with it the density there
    and the list of samples; the candidate is appended to [rejected]. *)
Theorem rejection_keeps_position (l : locals) (g : rng) :
  accepts l g = false ->
  x (fst (body l g)) = x l
  /\ p (x (fst (body l g))) = p (x l)
  /\ samples (fst (body l g)) = samples l
  /\ rejected (fst (body l g)) = rejected l ++ [candidate l g].
Proof.
  intros Ha. rewrite body_rejects by assumption. repeat split.
Qed.

End AcceptanceRule.

(** ** Runs *)

Section Runs.

Context {V : Type} {rng : Type}.
Variable vadd : V -> V -> V.
Variable p : V -> float64.
Variable q : Rand rng V.
Variable uniform : Rand rng float64.

Local Abbreviation body := (MC.body vadd p q uniform).
Local Abbreviation loop := (MC.loop vadd p q uniform).
Local Abbreviation candidate := (MC.candidate vadd q).
Local Abbreviation accepts := (MC.accepts vadd p q uniform).
Local Abbreviation history := (MC.history vadd p q uniform).
Local Abbreviation metropolis := (MC.metropolis vadd p q uniform).

(** One more pass, seen from the end of the loop. *)
Lemma loop_snoc (k : nat) (l : locals) (g : rng) :
  loop (S k) l g = body (fst (loop k l g)) (snd (loop k l g)).
Proof.
  revert l g. induction k as [|k IH]; intros l g.
  - simpl. unfold bind, ret. now destruct (body l g).
  - rewrite loop_succ, IH, <- loop_succ. reflexivity.
Qed.

(** C2, as the code has it.  [metropolis] has no burn-in and no thinning,
    and [samples] is what the notebook plots as the trace.  After any
    number of passes the length of [samples] is the number of passes that
    accepted their candidate so far, at most the number of passes; the
    next pass appends its candidate when it accepts it and leaves
    [samples] alone when it rejects it. *)
Theorem samples_count_accepted (k : nat) (l : locals) (g : rng) :
  let here := loop k l g in
  let next := loop (S k) l g in
  length (samples (fst here))
    = (length (samples l) + length (filter snd (history k l g)))%nat
  /\ (length (filter snd (history k l g)) <= k)%nat
  /\ samples (fst next)
     = if accepts (fst here) (snd here)
       then samples (fst here) ++ [candidate (fst here) (snd here)]
       else samples (fst here).
Proof.
  cbv zeta. split; [|split].
  - destruct (loop_lists vadd p q uniform k l g) as [Hs _].
    rewrite Hs, length_app. unfold accepted_of. now rewrite length_map.
  - pose proof (accepted_at_most (history k l g)) as H.
    unfold accepted_of in H.
    now rewrite length_map, history_length in H.
  - rewrite loop_snoc, (body_cases vadd p q uniform).
    destruct (accepts _ _); reflexivity.
Qed.

(** C10.  For [n >= 0] the run makes [n] passes; the two arrays returned
    are the candidates of the passes that accepted, and of those that
    rejected, in order.  Together they hold each of the [n] candidates
    once, so their lengths add up to [n]: the initial position has no
    entry of its own. *)
Theorem metropolis_partitions (x_init : V) (n : Z) (g : rng) :
  0 <= n ->
  let h := history (Z.to_nat n) (Locals x_init [] []) g in
  let r := fst (metropolis x_init n g) in
  Z.of_nat (length h) = n
  /\ r = (accepted_of h, rejected_of h)
  /\ Permutation (fst r ++ snd r) (map fst h)
  /\ Z.of_nat (length (fst r)) + Z.of_nat (length (snd r)) = n.
Proof.
  intros Hn. cbv zeta. rewrite metropolis_lists. cbn [fst snd].
  pose proof (split_lengths (history (Z.to_nat n) (Locals x_init [] []) g))
    as Hl.
  rewrite history_length in *.
  repeat split; try lia.
  apply split_permutation.
Qed.

End Runs.

(** ** Concrete runs *)

Section DemoRuns.

Import Demo.

Local Abbreviation body := (MC.body add).
Local Abbreviation candidate := (MC.candidate add draw).
Local Abbreviation drawn := (MC.drawn draw draw).

Lemma acceptance_rule_witness :
  (in_unit half = true
   /\ ge (p_steps (add half zero)) (p_steps half) = true
   /\ is_finite_nonzero (p_steps (add half zero)) = true
   /\ x (fst (body p_steps draw draw (start half) [zero; half])) = half
   /\ samples (fst (body p_steps draw draw (start half) [zero; half]))
      = [half])
  /\ (gt (p_unit (add two (SFopp two))) (p_unit two) = true
      /\ x (fst (body p_unit draw draw (start two) [SFopp two; quarter]))
         = zero
      /\ snd (body p_unit draw draw (start two) [SFopp two; quarter])
         = [quarter])
  /\ (gt (p_steps (add half one)) (p_steps half) = false
      /\ lt quarter (truediv (p_steps (add half one)) (p_steps half)) = true
      /\ samples (fst (body p_steps draw draw (start half) [one; quarter]))
         = [add half one]
      /\ snd (body p_steps draw draw (start half) [one; quarter]) = [])
  /\ (gt (p_steps (add half one)) (p_steps half) = false
      /\ lt half (truediv (p_steps (add half one)) (p_steps half)) = false
      /\ x (fst (body p_steps draw draw (start half) [one; half])) = half
      /\ rejected (fst (body p_steps draw draw (start half) [one; half]))
         = [add half one]).
Proof.
  split; [|split; [|split]].
  - pose proof (acceptance_rule add p_steps draw draw (start half)
                  [zero; half]) as H.
    cbv zeta in H. destruct H as (H & _ & _).
    destruct (H eq_refl eq_refl eq_refl) as (Hx & Hs & _).
    exact (conj eq_refl (conj eq_refl (conj eq_refl (conj Hx Hs)))).
  - pose proof (acceptance_rule add p_unit draw draw (start two)
                  [SFopp two; quarter]) as H.
    cbv zeta in H. destruct H as (_ & H & _).
    destruct (H eq_refl) as (Hx & _ & _ & Hg).
    exact (conj eq_refl (conj Hx Hg)).
  - pose proof (acceptance_rule add p_steps draw draw (start half)
                  [one; quarter]) as H.
    cbv zeta in H. destruct H as (_ & _ & H).
    destruct (H eq_refl) as (Hg & Ha & _).
    destruct (Ha eq_refl) as (_ & Hs & _).
    exact (conj eq_refl (conj eq_refl (conj Hs Hg))).
  - pose proof (acceptance_rule add p_steps draw draw (start half)
                  [one; half]) as H.
    cbv zeta in H. destruct H as (_ & _ & H).
    destruct (H eq_refl) as (_ & _ & Hr).
    destruct (Hr eq_refl) as (Hx & _ & Hrej).
    exact (conj eq_refl (conj eq_refl (conj Hx Hrej))).
Defined.

Lemma impossible_positions_witness :
  (is_zero (p_unit two) = true
   /\ is_positive (p_unit (add two (SFopp two))) = true
   /\ x (fst (body p_unit draw draw (start two) [SFopp two; quarter]))
      = zero
   /\ samples (fst (body p_unit draw draw (start two) [SFopp two; quarter]))
      = [zero]
   /\ snd (body p_unit draw draw (start two) [SFopp two; quarter])
      = [quarter])
  /\ (is_zero (p_unit (add half two)) = true
      /\ is_density (p_unit half) = true
      /\ in_unit zero = true
      /\ x (fst (body p_unit draw draw (start half) [two; zero])) = half
      /\ samples (fst (body p_unit draw draw (start half) [two; zero])) = []
      /\ rejected (fst (body p_unit draw draw (start half) [two; zero]))
         = [add half two]).
Proof.
  split.
  - pose proof (impossible_positions add p_unit draw draw (start two)
                  [SFopp two; quarter]) as H.
    cbv zeta in H. destruct H as (H & _).
    destruct (H eq_refl eq_refl) as (Hx & Hs & _ & Hg).
    exact (conj eq_refl (conj eq_refl (conj Hx (conj Hs Hg)))).
  - pose proof (impossible_positions add p_unit draw draw (start half)
                  [two; zero]) as H.
    cbv zeta in H. destruct H as (_ & H).
    destruct (H eq_refl eq_refl eq_refl) as (Hx & Hs & Hr).
    exact (conj eq_refl (conj eq_refl (conj eq_refl
             (conj Hx (conj Hs Hr))))).
Defined.

Lemma rejection_keeps_position_witness :
  accepts add p_steps draw draw (start half) [one; half] = false
  /\ x (fst (body p_steps draw draw (start half) [one; half])) = half
  /\ p_steps (x (fst (body p_steps draw draw (start half) [one; half])))
     = p_steps half
  /\ samples (fst (body p_steps draw draw (start half) [one; half])) = []
  /\ rejected (fst (body p_steps draw draw (start half) [one; half]))
     = [] ++ [candidate (start half) [one; half]].
Proof.
  split; [reflexivity|].
  apply (rejection_keeps_position add p_steps draw draw
           (start half) [one; half]).
  reflexivity.
Defined.

(** One pass from [0.5] whose candidate [2.5] is rejected: one iteration
    has been made and [samples] is still empty. *)
Lemma rejected_pass_not_in_samples :
  ~ (forall (p : float64 -> float64) (x_init : float64) (k : nat) (t : tape),
        length (samples (fst (loop add p draw draw k (start x_init) t))) = k).
Proof.
  intros H. specialize (H p_unit half 1%nat [two; quarter]).
  vm_compute in H. discriminate H.
Qed.

Lemma metropolis_partitions_witness :
  0 <= 3
  /\ fst (run p_steps half 3 [one; quarter; one; quarter; quarter; zero])
     = (accepted_of (history add p_steps draw draw 3 (start half)
                       [one; quarter; one; quarter; quarter; zero]),
        rejected_of (history add p_steps draw draw 3 (start half)
                       [one; quarter; one; quarter; quarter; zero]))
  /\ Z.of_nat (length (fst (fst (run p_steps half 3
                  [one; quarter; one; quarter; quarter; zero]))))
     + Z.of_nat (length (snd (fst (run p_steps half 3
                  [one; quarter; one; quarter; quarter; zero])))) = 3.
Proof.
  split; [lia|].
  pose proof (metropolis_partitions add p_steps draw draw half 3
                [one; quarter; one; quarter; quarter; zero]
                ltac:(lia)) as H.
  cbv zeta in H. destruct H as (_ & H2 & _ & H4).
  split; [exact H2 | exact H4].
Defined.

End DemoRuns.

(** ** The unguarded division *)

Section Division.

Context {V : Type} {rng : Type}.
Variable vadd : V -> V -> V.
Variable p : V -> float64.
Variable q : Rand rng V.
Variable uniform : Rand rng float64.

Local Abbreviation body := (MC.body vadd p q uniform).
Local Abbreviation body_on := (Raising.body vadd p q uniform).

(** With float64 densities no pass raises: it is the pass of [MC.body]. *)
Lemma body_on_float64 (l : locals) (g : rng) :
  body_on Raising.Float64 l g = Some (body l g).
Proof.
  unfold Raising.body, MC.body, Raising.quotient, bind, ret.
  destruct (q g) as [d g1]. destruct (gt _ _); [reflexivity|].
  destruct (uniform g1) as [u g2]. destruct (lt u _); reflexivity.
Qed.

(** Whatever the kind of number, a pass whose divisor is not zero does
    not raise either. *)
Lemma body_on_nonzero (k : Raising.scalar) (l : locals) (g : rng) :
  is_zero (p (x l)) = false -> body_on k l g = Some (body l g).
Proof.
  intros Hz. destruct k; [apply body_on_float64|].
  unfold Raising.body, MC.body, Raising.quotient, bind, ret.
  destruct (q g) as [d g1]. destruct (gt _ _); [reflexivity|].
  rewrite Hz.
  destruct (uniform g1) as [u g2]. destruct (lt u _); reflexivity.
Qed.

(** With Python floats, a pass that reaches the division at a position of
    zero density raises. *)
Lemma body_on_pyfloat_zero (l : locals) (g : rng) :
  gt (p (vadd (x l) (fst (q g)))) (p (x l)) = false ->
  is_zero (p (x l)) = true ->
  body_on Raising.PyFloat l g = None.
Proof.
  intros Hb Hz. unfold Raising.body, Raising.quotient.
  destruct (q g) as [d g1]. cbn [fst] in Hb. now rewrite Hb, Hz.
Qed.

(** C5, as the code has it.  A candidate out of the support (density
    zero), proposed from a position whose density is not negative, with a
    uniform draw that is not negative, fails the first test, so that the
    division [p(x_prime)/p(x)] is evaluated: nothing guards it.
    - From a position whose density is not zero the pass raises nothing,
      for float64 and for Python floats alike, and the candidate is
      rejected: [x] and [samples] stay, the candidate goes to [rejected].
    - From a position of zero density the division is [0/0].  With float64
      densities it yields NaN and the candidate is rejected; with Python
      floats it raises and no pass is completed. *)
Theorem out_of_support_rejected (k : Raising.scalar) (l : locals) (g : rng) :
  let x_prime := vadd (x l) (fst (q g)) in
  let u := fst (uniform (snd (q g))) in
  let rejection :=
    ({| x := x l; samples := samples l; rejected := rejected l ++ [x_prime] |},
     snd (uniform (snd (q g)))) in
  is_zero (p x_prime) = true ->
  is_density (p (x l)) = true ->
  le zero u = true ->
  gt (p x_prime) (p (x l)) = false
  /\ (is_zero (p (x l)) = false -> body_on k l g = Some rejection)
  /\ (is_zero (p (x l)) = true ->
      truediv (p x_prime) (p (x l)) = nan
      /\ body_on Raising.Float64 l g = Some rejection
      /\ body_on Raising.PyFloat l g = None).
Proof.
  cbv zeta. intros Hz Hd Hu.
  destruct (zero_candidate_stays vadd p q uniform l g Hz Hd Hu) as [Hb Ha].
  assert (Hbody : body l g
                  = (stay l (vadd (x l) (fst (q g))),
                     snd (uniform (snd (q g))))).
  { rewrite (body_not_better vadd p q uniform l g Hb).
    unfold MC.accepts in Ha. rewrite Hb in Ha. now rewrite Ha. }
  split; [exact Hb|]. split.
  - intros Hx. now rewrite body_on_nonzero, Hbody.
  - intros Hx. split; [now apply (pa_zero_zero vadd p q l g)|]. split.
    + now rewrite body_on_float64, Hbody.
    + now apply body_on_pyfloat_zero.
Qed.

End Division.

Section DivisionRuns.

Import Demo.

(** At [2.0], out of the support of [p_unit], with the candidate [2.5],
    out of it as well, the division is [0.0/0.0]: with Python floats the
    pass raises. *)
Lemma division_by_zero_raises :
  ~ (forall (k : Raising.scalar) (p : float64 -> float64) (l : locals)
            (t : tape),
        Raising.body add p draw draw k l t <> None).
Proof.
  intros H.
  apply (H Raising.PyFloat p_unit (start two) [half; quarter]).
  reflexivity.
Qed.

Lemma out_of_support_rejected_witness :
  (is_zero (p_unit (add half two)) = true
   /\ is_density (p_unit half) = true
   /\ le zero quarter = true
   /\ is_zero (p_unit half) = false
   /\ Raising.body add p_unit draw draw Raising.PyFloat (start half)
        [two; quarter]
      = Some ({| x := half; samples := []; rejected := [add half two] |},
              []))
  /\ (is_zero (p_unit (add two half)) = true
      /\ is_density (p_unit two) = true
      /\ le zero quarter = true
      /\ is_zero (p_unit two) = true
      /\ truediv (p_unit (add two half)) (p_unit two) = nan
      /\ Raising.body add p_unit draw draw Raising.Float64 (start two)
           [half; quarter]
         = Some ({| x := two; samples := []; rejected := [add two half] |},
                 [])
      /\ Raising.body add p_unit draw draw Raising.PyFloat (start two)
           [half; quarter]
         = None).
Proof.
  split.
  - pose proof (out_of_support_rejected add p_unit draw draw Raising.PyFloat
                  (start half) [two; quarter]) as H.
    cbv zeta in H. destruct (H eq_refl eq_refl eq_refl) as (_ & H1 & _).
    exact (conj eq_refl (conj eq_refl (conj eq_refl (conj eq_refl
             (H1 eq_refl))))).
  - pose proof (out_of_support_rejected add p_unit draw draw Raising.PyFloat
                  (start two) [half; quarter]) as H.
    cbv zeta in H. destruct (H eq_refl eq_refl eq_refl) as (_ & _ & H2).
    destruct (H2 eq_refl) as (Hn & Hf & Hp).
    exact (conj eq_refl (conj eq_refl (conj eq_refl (conj eq_refl
             (conj Hn (conj Hf Hp)))))).
Defined.

End DivisionRuns.

(** ** What a whole run keeps *)

Section Float64Order.

Lemma compare_self (a : float64) :
  SFcompare a a = Some Eq \/ SFcompare a a = None.
Proof.
  destruct a as [s|s| |s m e]; simpl; auto.
  - destruct s; auto.
  - left. destruct s; rewrite Z.compare_refl, Pos.compare_cont_refl;
      reflexivity.
Qed.

(** No float64 is above itself. *)
Lemma gt_irrefl (a : float64) : gt a a = false.
Proof.
  unfold gt, SFltb. destruct (compare_self a) as [-> | ->]; reflexivity.
Qed.

Lemma gt_nan_l (a : float64) : gt nan a = false.
Proof. destruct a; reflexivity. Qed.

Lemma gt_nan_r (a : float64) : gt a nan = false.
Proof. reflexivity. Qed.

Lemma truediv_nan_l (a : float64) : truediv nan a = nan.
Proof. reflexivity. Qed.

Lemma truediv_nan_r (a : float64) : truediv a nan = nan.
Proof. destruct a; reflexivity. Qed.

Lemma lt_nan (u : float64) : lt u nan = false.
Proof. destruct u; reflexivity. Qed.

Lemma is_nan_eq (a : float64) : is_nan a = true -> a = nan.
Proof. destruct a; try discriminate; reflexivity. Qed.

End Float64Order.

Section Chains.

Context {V : Type} {rng : Type}.
Variable vadd : V -> V -> V.
Variable p : V -> float64.
Variable q : Rand rng V.
Variable uniform : Rand rng float64.

Local Abbreviation body := (MC.body vadd p q uniform).
Local Abbreviation loop := (MC.loop vadd p q uniform).
Local Abbreviation candidate := (MC.candidate vadd q).
Local Abbreviation better := (MC.better vadd p q).
Local Abbreviation pa := (MC.pa vadd p q).
Local Abbreviation drawn := (MC.drawn q uniform).
Local Abbreviation accepts := (MC.accepts vadd p q uniform).
Local Abbreviation history := (MC.history vadd p q uniform).
Local Abbreviation metropolis := (MC.metropolis vadd p q uniform).
Local Abbreviation path := (Walk.path vadd q).
Local Abbreviation proposal_from := (Walk.proposal_from vadd q).

(** A pass looks at the locals only through the current position. *)
Lemma body_frame (l l' : locals) (g : rng) :
  x l = x l' ->
  candidate l g = candidate l' g
  /\ accepts l g = accepts l' g
  /\ snd (body l g) = snd (body l' g)
  /\ x (fst (body l g)) = x (fst (body l' g)).
Proof.
  intros Hx.
  assert (Hc : candidate l g = candidate l' g)
    by (unfold MC.candidate; now rewrite Hx).
  assert (Hb : better l g = better l' g)
    by (unfold MC.better; now rewrite Hc, Hx).
  assert (Ha : accepts l g = accepts l' g)
    by (unfold MC.accepts, MC.pa; now rewrite Hb, Hc, Hx).
  repeat split; try assumption.
  - destruct (better l g) eqn:E; symmetry in Hb.
    + now rewrite !body_better.
    + now rewrite !body_not_better.
  - rewrite !body_cases, <- Ha, <- Hc.
    destruct (accepts l g); simpl; congruence.
Qed.

Lemma loop_frame (k : nat) (l l' : locals) (g : rng) :
  x l = x l' ->
  history k l g = history k l' g
  /\ snd (loop k l g) = snd (loop k l' g)
  /\ x (fst (loop k l g)) = x (fst (loop k l' g)).
Proof.
  revert l l' g. induction k as [|k IH]; intros l l' g Hx.
  - repeat split; assumption.
  - destruct (body_frame l l' g Hx) as (Hc & Ha & Hg & Hx').
    rewrite !(loop_succ vadd p q uniform). cbn [MC.history].
    rewrite <- Hg, <- Hc, <- Ha.
    destruct (IH _ _ (snd (body l g)) Hx') as (Hh & Hg' & Hx'').
    rewrite Hh. repeat split; assumption.
Qed.

Lemma loop_add (k j : nat) (l : locals) (g : rng) :
  loop (k + j) l g = loop j (fst (loop k l g)) (snd (loop k l g)).
Proof.
  revert l g. induction k as [|k IH]; intros l g.
  - reflexivity.
  - change (S k + j)%nat with (S (k + j)).
    now rewrite !(loop_succ vadd p q uniform), IH.
Qed.

Lemma metropolis_generator (x_init : V) (n : Z) (g : rng) :
  snd (metropolis x_init n g)
  = snd (loop (Z.to_nat n) (Locals x_init [] []) g).
Proof.
  unfold MC.metropolis, bind, ret. now destruct (loop _ _ g).
Qed.

(** A run of [n + m] passes is a run of [n] passes followed by a run of [m]
    passes that starts at the last sample of the first (at [x_init] when
    it has none) with the generator as the first left it: the arrays of
    the long run are those of the two runs, one after the other. *)
Theorem metropolis_resumes (x_init : V) (n m : Z) (g : rng) :
  0 <= n -> 0 <= m ->
  let r1 := metropolis x_init n g in
  let r2 := metropolis (last (fst (fst r1)) x_init) m (snd r1) in
  metropolis x_init (n + m) g
  = ((fst (fst r1) ++ fst (fst r2), snd (fst r1) ++ snd (fst r2)), snd r2).
Proof.
  intros Hn Hm. cbv zeta.
  set (l0 := Locals x_init [] []).
  set (l1 := fst (loop (Z.to_nat n) l0 g)).
  set (g1 := snd (loop (Z.to_nat n) l0 g)).
  pose proof (loop_lists vadd p q uniform (Z.to_nat n) l0 g) as [Hs1 Hr1].
  fold l1 in Hs1, Hr1. cbn [samples rejected l0 app] in Hs1, Hr1.
  assert (Hx : x l1 = last (accepted_of (history (Z.to_nat n) l0 g)) x_init)
    by apply (loop_position vadd p q uniform).
  rewrite (metropolis_generator x_init n). fold l0 g1.
  rewrite (metropolis_lists vadd p q uniform x_init n). fold l0.
  cbn [fst snd].
  destruct (loop_frame (Z.to_nat m) l1
              (Locals (last (accepted_of (history (Z.to_nat n) l0 g)) x_init)
                 [] [])
              g1 Hx) as (Hh & Hg & _).
  replace (Z.to_nat (n + m)) with (Z.to_nat n + Z.to_nat m)%nat by lia.
  apply injective_projections.
  - rewrite !(metropolis_lists vadd p q uniform). cbn [fst snd].
    fold l0. rewrite <- Hh.
    replace (Z.to_nat (n + m)) with (Z.to_nat n + Z.to_nat m)%nat by lia.
    pose proof (loop_lists vadd p q uniform (Z.to_nat n + Z.to_nat m) l0 g)
      as [Hs Hr].
    pose proof (loop_lists vadd p q uniform (Z.to_nat m) l1 g1) as [Hs2 Hr2].
    rewrite loop_add in Hs, Hr. fold l1 g1 in Hs, Hr.
    rewrite Hs2, Hs1 in Hs. rewrite Hr2, Hr1 in Hr.
    cbn [samples rejected l0 app] in Hs, Hr.
    now rewrite Hs, Hr.
  - cbn [snd]. rewrite !metropolis_generator. fold l0. rewrite <- Hg.
    replace (Z.to_nat (n + m)) with (Z.to_nat n + Z.to_nat m)%nat by lia.
    now rewrite loop_add.
Qed.

End Chains.

Section Invariants.

Context {V : Type} {rng : Type}.
Variable vadd : V -> V -> V.
Variable p : V -> float64.
Variable q : Rand rng V.
Variable uniform : Rand rng float64.

Local Abbreviation body := (MC.body vadd p q uniform).
Local Abbreviation candidate := (MC.candidate vadd q).
Local Abbreviation better := (MC.better vadd p q).
Local Abbreviation pa := (MC.pa vadd p q).
Local Abbreviation drawn := (MC.drawn q uniform).
Local Abbreviation accepts := (MC.accepts vadd p q uniform).
Local Abbreviation history := (MC.history vadd p q uniform).
Local Abbreviation metropolis := (MC.metropolis vadd p q uniform).
Local Abbreviation path := (Walk.path vadd q).
Local Abbreviation proposal_from := (Walk.proposal_from vadd q).

(** A candidate whose density is NaN is never jumped to. *)
Lemma nan_candidate_stays (l : locals) (g : rng) :
  is_nan (p (candidate l g)) = true -> accepts l g = false.
Proof.
  intros H. apply is_nan_eq in H. unfold MC.accepts, MC.better, MC.pa.
  now rewrite H, gt_nan_l, truediv_nan_l, lt_nan.
Qed.

(** From a position whose density is NaN no candidate is jumped to. *)
Lemma nan_position_stays (l : locals) (g : rng) :
  is_nan (p (x l)) = true -> accepts l g = false.
Proof.
  intros H. apply is_nan_eq in H. unfold MC.accepts, MC.better, MC.pa.
  now rewrite H, gt_nan_r, truediv_nan_r, lt_nan.
Qed.

(** The position after a pass. *)
Lemma body_position (l : locals) (g : rng) :
  x (fst (body l g)) = if accepts l g then candidate l g else x l.
Proof. rewrite body_cases. now destruct (accepts l g). Qed.

(** Every sample lies where the density is neither zero nor NaN, provided
    [p] never returns a negative number and no uniform draw is negative:
    the chain never enters a region out of the support, and never a point
    where the density is undefined. *)
Theorem samples_in_support (x_init : V) (n : Z) (g : rng) :
  (forall v, is_density (p v) = true) ->
  (forall g', le zero (fst (uniform g')) = true) ->
  Forall (fun v => is_zero (p v) = false /\ is_nan (p v) = false)
         (fst (fst (metropolis x_init n g))).
Proof.
  intros Hp Hu. rewrite (metropolis_lists vadd p q uniform). cbn [fst].
  generalize (Locals x_init [] []) as l. revert g.
  induction (Z.to_nat n) as [|k IH]; intros g l; [constructor|].
  cbn [MC.history]. unfold accepted_of. cbn [filter snd].
  destruct (accepts l g) eqn:Ha; [|apply IH].
  cbn [map fst]. constructor; [|apply IH].
  split.
  - destruct (is_zero (p (candidate l g))) eqn:Hz; [|reflexivity].
    destruct (zero_candidate_stays vadd p q uniform l g Hz (Hp _) (Hu _))
      as [_ Hr].
    congruence.
  - destruct (is_nan (p (candidate l g))) eqn:Hn; [|reflexivity].
    rewrite nan_candidate_stays in Ha by assumption. discriminate.
Qed.

(** When the density at [x_init] is NaN the chain never moves: for
    [n >= 0] all [n] candidates are rejected and no sample is returned. *)
Theorem nan_start_never_moves (x_init : V) (n : Z) (g : rng) :
  is_nan (p x_init) = true -> 0 <= n ->
  fst (fst (metropolis x_init n g)) = []
  /\ Z.of_nat (length (snd (fst (metropolis x_init n g)))) = n.
Proof.
  intros Hnan Hn. rewrite (metropolis_lists vadd p q uniform). cbn [fst snd].
  assert (H : forall k l g0, is_nan (p (x l)) = true ->
                accepted_of (history k l g0) = []).
  { induction k as [|k IH]; intros l g0 Hl; [reflexivity|].
    cbn [MC.history]. unfold accepted_of. cbn [filter snd].
    rewrite (nan_position_stays l g0 Hl).
    apply IH. rewrite body_position, (nan_position_stays l g0 Hl).
    assumption. }
  split; [now apply H|].
  pose proof (split_lengths (history (Z.to_nat n) (Locals x_init [] []) g))
    as Hl.
  rewrite H, history_length in Hl by assumption. simpl in Hl. lia.
Qed.

(** Under a flat density (one finite nonzero value everywhere) and
    uniform draws below one, nothing is rejected: for [n >= 0] all [n]
    candidates become samples, and the run is a plain random walk. *)
Theorem flat_density_accepts_all (c : float64) (x_init : V) (n : Z) (g : rng) :
  is_finite_nonzero c = true ->
  (forall v, p v = c) ->
  (forall g', lt (fst (uniform g')) one = true) ->
  0 <= n ->
  snd (fst (metropolis x_init n g)) = []
  /\ Z.of_nat (length (fst (fst (metropolis x_init n g)))) = n.
Proof.
  intros Hc Hp Hu Hn. rewrite (metropolis_lists vadd p q uniform).
  cbn [fst snd].
  assert (Ha : forall l g0, accepts l g0 = true).
  { intros l g0. unfold MC.accepts, MC.better, MC.pa.
    rewrite !Hp, gt_irrefl.
    destruct c as [s|s| |s m e]; try discriminate.
    rewrite truediv_self. apply Hu. }
  assert (H : forall k l g0, rejected_of (history k l g0) = []).
  { induction k as [|k IH]; intros l g0; [reflexivity|].
    cbn [MC.history]. unfold rejected_of. cbn [filter snd].
    rewrite Ha. cbn [negb]. apply IH. }
  split; [apply H|].
  pose proof (split_lengths (history (Z.to_nat n) (Locals x_init [] []) g))
    as Hl.
  rewrite H, history_length in Hl. simpl in Hl. lia.
Qed.

(** The samples form a walk: the first is a proposal from [x_init], each
    later one a proposal from the sample before it.  Every rejected
    candidate is a proposal from [x_init] or from one of the samples. *)
Theorem samples_form_path (x_init : V) (n : Z) (g : rng) :
  let r := fst (metropolis x_init n g) in
  path x_init (fst r)
  /\ Forall (fun c => exists a, In a (x_init :: fst r) /\ proposal_from a c)
            (snd r).
Proof.
  cbv zeta. rewrite (metropolis_lists vadd p q uniform). cbn [fst snd].
  change x_init with (x (Locals x_init [] [])) at 1 3.
  generalize (Locals x_init [] []) as l. revert g.
  induction (Z.to_nat n) as [|k IH]; intros g l.
  - split; constructor.
  - cbn [MC.history]. unfold accepted_of, rejected_of. cbn [filter snd].
    destruct (IH (snd (body l g)) (fst (body l g))) as [Hp Hr].
    rewrite body_position in Hp, Hr.
    assert (Hc : proposal_from (x l) (candidate l g))
      by (exists g; reflexivity).
    destruct (accepts l g) eqn:Ha; cbn [negb map fst]; split.
    + split; assumption.
    + eapply Forall_impl; [|exact Hr].
      intros c (a & Hin & Hpc). exists a. split; [|assumption].
      right. exact Hin.
    + exact Hp.
    + constructor.
      * exists (x l). split; [left; reflexivity | assumption].
      * exact Hr.
Qed.

(** [range(n)] is empty for [n <= 0]: no pass is made, nothing is drawn
    from the generator, and both arrays are empty. *)
Theorem metropolis_no_pass (x_init : V) (n : Z) (g : rng) :
  n <= 0 -> metropolis x_init n g = (([], []), g).
Proof.
  intros Hn. unfold MC.metropolis.
  replace (Z.to_nat n) with 0%nat by lia. reflexivity.
Qed.

End Invariants.

(** ** How much of the generator a run uses *)

Section GeneratorCalls.

Context {V : Type} {rng : Type}.
Variable vadd : V -> V -> V.
Variable p : V -> float64.
Variable q : Rand rng V.
Variable uniform : Rand rng float64.

Local Abbreviation body := (MC.body vadd p q uniform).
Local Abbreviation loop := (MC.loop vadd p q uniform).
Local Abbreviation better := (MC.better vadd p q).
Local Abbreviation accepts := (MC.accepts vadd p q uniform).
Local Abbreviation history := (MC.history vadd p q uniform).
Local Abbreviation metropolis := (MC.metropolis vadd p q uniform).
Local Abbreviation body_c := (MC.body vadd p (as_q q) (as_uniform uniform)).
Local Abbreviation loop_c := (MC.loop vadd p (as_q q) (as_uniform uniform)).
Local Abbreviation metropolis_c :=
  (MC.metropolis vadd p (as_q q) (as_uniform uniform)).

(** A pass with the calls counted: the same pass, one more call of [q],
    and one more of [np.random.uniform] unless the candidate is strictly
    denser. *)
Lemma body_counted (l : locals) (g : rng) (cq cu : nat) :
  body_c l (g, (cq, cu))
  = (fst (body l g),
     (snd (body l g), (S cq, if better l g then cu else S cu))).
Proof.
  unfold MC.better, MC.candidate, MC.body, bind, ret, as_q, as_uniform,
    calls_q, calls_uniform.
  cbn [fst snd].
  destruct (q g) as [d g1]. cbn [fst snd].
  destruct (gt _ _); [reflexivity|].
  cbn [fst snd]. destruct (uniform g1) as [u g2]. cbn [fst snd].
  destruct (lt u _); reflexivity.
Qed.

Lemma loop_counted (k : nat) (l : locals) (g : rng) (cq cu : nat) :
  let r := loop_c k l (g, (cq, cu)) in
  fst r = fst (loop k l g)
  /\ fst (snd r) = snd (loop k l g)
  /\ calls_q (snd r) = (cq + k)%nat
  /\ (cu + length (rejected_of (history k l g)) <= calls_uniform (snd r))%nat
  /\ (calls_uniform (snd r) <= cu + k)%nat.
Proof.
  cbv zeta. revert l g cq cu. induction k as [|k IH]; intros l g cq cu.
  - cbn. unfold calls_q, calls_uniform. cbn. repeat split; lia.
  - rewrite (loop_succ vadd p (as_q q) (as_uniform uniform)), body_counted.
    cbn [fst snd]. rewrite (loop_succ vadd p q uniform).
    destruct (IH (fst (body l g)) (snd (body l g)) (S cq)
                (if better l g then cu else S cu))
      as (H1 & H2 & H3 & H4 & H5).
    repeat split; try assumption; try lia.
    + cbn [MC.history]. unfold rejected_of in *. cbn [filter snd].
      unfold MC.accepts.
      destruct (better l g); cbn [negb map length] in *; [lia|].
      destruct (lt _ _); cbn [negb map length] in *; lia.
    + destruct (better l g); lia.
Qed.

(** A run of [n >= 0] iterations calls [q] exactly [n] times and
    [np.random.uniform] at most [n] times, at least once for every
    rejected candidate; counting the calls changes neither the arrays
    returned nor the state the generator is left in. *)
Theorem generator_calls (x_init : V) (n : Z) (g : rng) :
  0 <= n ->
  let r := metropolis_c x_init n (g, (O, O)) in
  fst r = fst (metropolis x_init n g)
  /\ fst (snd r) = snd (metropolis x_init n g)
  /\ Z.of_nat (calls_q (snd r)) = n
  /\ (length (snd (fst r)) <= calls_uniform (snd r))%nat
  /\ Z.of_nat (calls_uniform (snd r)) <= n.
Proof.
  intros Hn. cbv zeta.
  pose proof (loop_counted (Z.to_nat n) (Locals x_init [] []) g O O) as H.
  cbv zeta in H. destruct H as (H1 & H2 & H3 & H4 & H5).
  pose proof (metropolis_lists vadd p q uniform x_init n g) as Hl.
  unfold MC.metropolis, bind, ret in *.
  destruct (loop_c _ _ _) as [lc sc].
  destruct (loop _ _ g) as [l' g'].
  cbn [fst snd] in *. subst lc.
  injection Hl as Hs Hr.
  repeat split; try assumption; try lia.
  rewrite Hr. simpl in H4. exact H4.
Qed.

End GeneratorCalls.

(** ** The imputation cell *)

Section ImputationFacts.

Import Imputation.

Lemma store_length (h : heap) (i : nat) (b : list float64) :
  length (store h i b) = length h.
Proof.
  revert i. induction h as [|c h IH]; intros i; [reflexivity|].
  destruct i; simpl; [reflexivity | now rewrite IH].
Qed.

Lemma store_same (h : heap) (i : nat) (b : list float64) :
  (i < length h)%nat -> nth i (store h i b) [] = b.
Proof.
  revert i. induction h as [|c h IH]; intros i Hi; simpl in Hi; [lia|].
  destruct i; simpl; [reflexivity | apply IH; lia].
Qed.

Lemma zero_last3_shape (l : list float64) :
  zero_last3 l
  = firstn (length l - 3) l ++ repeat zero (Nat.min 3 (length l)).
Proof.
  unfold zero_last3. f_equal. f_equal. lia.
Qed.

Lemma count_masked_map (f : float64 -> bool) (l : list float64) :
  count_masked (map f l) = length (filter f l).
Proof.
  unfold count_masked. induction l as [|v l IH]; [reflexivity|]. simpl.
  unfold id at 1. destruct (f v); simpl; now rewrite IH.
Qed.

Lemma count_masked_app (m m' : list bool) :
  count_masked (m ++ m') = (count_masked m + count_masked m')%nat.
Proof. unfold count_masked. now rewrite filter_app, length_app. Qed.

Lemma count_masked_all (k : nat) : count_masked (repeat true k) = k.
Proof.
  unfold count_masked. induction k as [|k IH]; [reflexivity|].
  simpl. now rewrite IH.
Qed.

Lemma map_repeat_zero (k : nat) :
  map (fun v => SFeqb v zero) (repeat zero k) = repeat true k.
Proof. induction k as [|k IH]; [reflexivity|]. simpl. now rewrite IH. Qed.

(** What [y] shows after the cell, and what [y_impute] holds. *)
Lemma impute_contents (h : heap) (y : ndarray) :
  (buffer y < length h)%nat ->
  contents (fst (impute h y)) y = zero_last3 (contents h y)
  /\ contents (fst (impute h y)) (data (snd (impute h y)))
     = zero_last3 (contents h y)
  /\ mask (snd (impute h y))
     = map (fun v => SFeqb v zero) (zero_last3 (contents h y)).
Proof.
  intros Hy. unfold impute, masked_equal_0, assign_last3, full_slice,
    contents. cbn [fst snd data mask buffer].
  rewrite app_nth1 by (rewrite store_length; exact Hy).
  rewrite app_nth2 by lia. rewrite Nat.sub_diag. cbn [nth].
  rewrite !store_same by exact Hy. repeat split.
Qed.

(** The cell overwrites the data of [y] itself: after it [y] has lost its
    last three measurements (all of them when it has fewer), which read
    [0.0], and keeps the earlier ones; [y_impute] holds the same numbers
    in a buffer of its own. *)
Theorem imputation_overwrites_y (h : heap) (y : ndarray) :
  (buffer y < length h)%nat ->
  let old := contents h y in
  let h' := fst (impute h y) in
  let y_impute := snd (impute h y) in
  contents h' y
  = firstn (length old - 3) old ++ repeat zero (Nat.min 3 (length old))
  /\ length (contents h' y) = length old
  /\ contents h' (data y_impute) = contents h' y
  /\ buffer (data y_impute) <> buffer y.
Proof.
  intros Hy. cbv zeta.
  destruct (impute_contents h y Hy) as (H1 & H2 & _).
  rewrite H2, H1, zero_last3_shape. repeat split.
  - rewrite length_app, length_firstn, repeat_length. lia.
  - unfold impute, masked_equal_0, assign_last3, full_slice.
    cbn [snd data buffer]. rewrite store_length. lia.
Qed.

(** The mask marks the entries that compare equal to zero, not the last
    three positions: the last three (all, when there are fewer) are
    masked, and so is every earlier measurement that is itself [0.0] or
    [-0.0].  The number of masked entries is the number of such
    measurements plus [min(3, len(y))]. *)
Theorem imputation_masks_zeros (h : heap) (y : ndarray) :
  (buffer y < length h)%nat ->
  let old := contents h y in
  let kept := firstn (length old - 3) old in
  let y_impute := snd (impute h y) in
  mask y_impute
  = map (fun v => SFeqb v zero) kept ++ repeat true (Nat.min 3 (length old))
  /\ length (mask y_impute) = length old
  /\ count_masked (mask y_impute)
     = (length (filter (fun v => SFeqb v zero) kept)
        + Nat.min 3 (length old))%nat.
Proof.
  intros Hy. cbv zeta.
  destruct (impute_contents h y Hy) as (_ & _ & H3).
  rewrite H3, zero_last3_shape, map_app, map_repeat_zero. repeat split.
  - rewrite length_app, length_map, length_firstn, repeat_length. lia.
  - now rewrite count_masked_app, count_masked_map, count_masked_all.
Qed.

End ImputationFacts.

(** ** The data of the mixture model *)

Section MixtureFacts.

Import Mixture.

Lemma digits2_shift (m : positive) :
  Z.pos (digits2_pos (4503599627370496 * m))
  = Z.pos (digits2_pos m) + 52.
Proof.
  cbn [Pos.mul digits2_pos]. rewrite !Pos2Z.inj_succ. lia.
Qed.

Lemma shr_shift (m : positive) :
  iter_pos shr_1 52
    (Build_shr_record (Z.pos (4503599627370496 * m)) false false)
  = Build_shr_record (Z.pos m) false false.
Proof. reflexivity. Qed.

(** [1.0 * a] is [a], for a finite float64 in canonical form. *)
Lemma mul_one_l (a : float64) :
  is_draw a = true -> mul one a = a.
Proof.
  unfold is_draw. destruct a as [s|s| |s m e]; try discriminate.
  cbn [is_finite_nonzero andb].
  unfold valid_binary, bounded, canonical_mantissa. intros H.
  apply andb_prop in H. destruct H as [Hc Hb].
  apply Z.eqb_eq in Hc.
  unfold mul, one, SFmul, binary_round_aux.
  assert (E1 : shr_fexp prec emax (Z.pos (4503599627370496 * m)) (-52 + e)
                 loc_Exact
               = (Build_shr_record (Z.pos m) false false, e)).
  { unfold shr_fexp, Zdigits2. rewrite digits2_shift.
    replace (Z.pos (digits2_pos m) + 52 + (-52 + e))
      with (Z.pos (digits2_pos m) + e) by lia.
    rewrite Hc. replace (e - (-52 + e)) with 52 by lia.
    unfold shr, shr_record_of_loc. rewrite shr_shift. f_equal. lia. }
  rewrite E1. cbn [shr_m loc_of_shr_record round_nearest_even].
  assert (E2 : shr_fexp prec emax (Z.pos m) e loc_Exact
               = (Build_shr_record (Z.pos m) false false, e)).
  { unfold shr_fexp, Zdigits2. rewrite Hc, Z.sub_diag. reflexivity. }
  rewrite E2. cbn [shr_m]. rewrite Hb. reflexivity.
Qed.

(** [0.0 * a] is a zero, for a finite [a]. *)
Lemma mul_zero_l (a : float64) :
  is_draw a = true -> is_zero (mul zero a) = true.
Proof.
  unfold is_draw. destruct a; try discriminate. reflexivity.
Qed.

Lemma add_zero_r (a z : float64) :
  is_finite_nonzero a = true -> is_zero z = true -> add a z = a.
Proof. destruct a, z; try discriminate; reflexivity. Qed.

Lemma add_zero_l (a z : float64) :
  is_finite_nonzero a = true -> is_zero z = true -> add z a = a.
Proof. destruct a, z; try discriminate; reflexivity. Qed.

Lemma add_zero_zero (z z' : float64) :
  is_zero z = true -> is_zero z' = true -> is_zero (add z z') = true.
Proof.
  destruct z as [s| | |], z' as [s'| | |]; try discriminate.
  destruct s, s'; reflexivity.
Qed.

Lemma is_draw_finite (a : float64) :
  is_draw a = true -> is_finite_nonzero a = true.
Proof. unfold is_draw. intros H. apply andb_prop in H. tauto. Qed.

(** One entry: with a label among 0, 1, 2 the sum of the three products
    is the draw the label picks, exactly. *)
Lemma entry_picks (v : Z) (a b c : float64) :
  0 <= v < 3 ->
  is_draw a = true -> is_draw b = true -> is_draw c = true ->
  entry v a b c = picked v a b c.
Proof.
  intros Hv Ha Hb Hc. unfold entry, picked.
  assert (v = 0 \/ v = 1 \/ v = 2) as [-> | [-> | ->]] by lia;
    cbn [Z.eqb Pos.eqb of_bool].
  - rewrite (mul_one_l a Ha).
    rewrite (add_zero_r a (mul zero b));
      auto using is_draw_finite, mul_zero_l.
    apply add_zero_r; auto using is_draw_finite, mul_zero_l.
  - rewrite (mul_one_l b Hb).
    rewrite (add_zero_l b (mul zero a));
      auto using is_draw_finite, mul_zero_l.
    apply add_zero_r; auto using is_draw_finite, mul_zero_l.
  - rewrite (mul_one_l c Hc).
    apply add_zero_l; auto using is_draw_finite, add_zero_zero, mul_zero_l.
Qed.

(** Every entry of [data] is, float for float, the draw of the component
    its label selects: with labels among 0, 1, 2 and finite nonzero draws
    the products by [0.0] and [1.0] and the additions change nothing.
    [data] has the length of the four arrays. *)
Theorem mixture_data_picks (ndata : nat) (v : list Z) (a b c : list float64) :
  length v = ndata -> length a = ndata ->
  length b = ndata -> length c = ndata ->
  Forall (fun vi => 0 <= vi < 3) v ->
  Forall (fun d => is_draw d = true) a ->
  Forall (fun d => is_draw d = true) b ->
  Forall (fun d => is_draw d = true) c ->
  data v a b c = picks v a b c /\ length (data v a b c) = ndata.
Proof.
  intros Lv La Lb Lc Hv. revert ndata a b c Lv La Lb Lc.
  induction Hv as [|vi v Hvi Hv IH]; intros ndata a b c Lv La Lb Lc Ha Hb Hc.
  - split; [reflexivity | exact Lv].
  - destruct Ha as [|ai a Hai Ha]; [simpl in *; lia|].
    destruct Hb as [|bi b Hbi Hb]; [simpl in *; lia|].
    destruct Hc as [|ci c Hci Hc]; [simpl in *; lia|].
    cbn [data picks length] in *. rewrite entry_picks by assumption.
    destruct (IH (length v) a b c) as [IH1 IH2]; try assumption; try lia.
    split; [now f_equal | lia].
Qed.

End MixtureFacts.

(** ** Concrete runs of the further properties *)

Section MoreRuns.

Import Demo Cases.

Lemma p_steps_density (v : float64) : is_density (p_steps v) = true.
Proof.
  unfold p_steps. destruct (in_unit v); [reflexivity|].
  destruct (le one v && lt v two); reflexivity.
Qed.

Lemma tick_not_negative (g : counter) : le zero (fst (tick g)) = true.
Proof.
  unfold tick, cycle. cbn [fst].
  destruct (Nat.modulo (fst g) 3) as [|[|k]]; reflexivity.
Qed.

Lemma tick_below_one (g : counter) : lt (fst (tick g)) one = true.
Proof.
  unfold tick, cycle. cbn [fst].
  destruct (Nat.modulo (fst g) 3) as [|[|k]]; reflexivity.
Qed.

Lemma metropolis_resumes_witness :
  0 <= 2 /\ 0 <= 1
  /\ run p_steps half (2 + 1) [one; quarter; one; quarter; quarter; zero]
     = ((fst (fst (run p_steps half 2
                     [one; quarter; one; quarter; quarter; zero]))
         ++ fst (fst (run p_steps
                        (last (fst (fst (run p_steps half 2
                           [one; quarter; one; quarter; quarter; zero])))
                           half)
                        1 [quarter; zero])),
         snd (fst (run p_steps half 2
                     [one; quarter; one; quarter; quarter; zero]))
         ++ snd (fst (run p_steps
                        (last (fst (fst (run p_steps half 2
                           [one; quarter; one; quarter; quarter; zero])))
                           half)
                        1 [quarter; zero]))),
        []).
Proof.
  split; [lia|]. split; [lia|].
  etransitivity;
    [apply (metropolis_resumes add p_steps draw draw half 2 1
              [one; quarter; one; quarter; quarter; zero]); lia
    |reflexivity].
Defined.

Lemma samples_in_support_witness :
  (forall v, is_density (p_steps v) = true)
  /\ (forall g, le zero (fst (tick g)) = true)
  /\ Forall (fun v => is_zero (p_steps v) = false
                      /\ is_nan (p_steps v) = false)
            (fst (fst (metropolis add p_steps tick tick half 6 (O, O)))).
Proof.
  split; [exact p_steps_density|]. split; [exact tick_not_negative|].
  apply (samples_in_support add p_steps tick tick half 6 (O, O)
           p_steps_density tick_not_negative).
Defined.

Lemma nan_start_never_moves_witness :
  is_nan (p_partial two) = true /\ 0 <= 3
  /\ fst (fst (metropolis add p_partial draw draw two 3
                 [SFopp two; quarter; SFopp one; half; zero; zero])) = []
  /\ Z.of_nat (length (snd (fst (metropolis add p_partial draw draw two 3
                 [SFopp two; quarter; SFopp one; half; zero; zero])))) = 3.
Proof.
  split; [reflexivity|]. split; [lia|].
  apply (nan_start_never_moves add p_partial draw draw two 3
           [SFopp two; quarter; SFopp one; half; zero; zero]);
    [reflexivity | lia].
Defined.

Lemma flat_density_accepts_all_witness :
  is_finite_nonzero half = true
  /\ (forall v, p_flat v = half)
  /\ (forall g, lt (fst (tick g)) one = true)
  /\ 0 <= 5
  /\ snd (fst (metropolis add p_flat tick tick two 5 (O, O))) = []
  /\ Z.of_nat (length (fst (fst (metropolis add p_flat tick tick two 5
                                   (O, O))))) = 5.
Proof.
  split; [reflexivity|]. split; [reflexivity|].
  split; [exact tick_below_one|]. split; [lia|].
  apply (flat_density_accepts_all add p_flat tick tick half two 5 (O, O));
    [reflexivity | reflexivity | exact tick_below_one | lia].
Defined.

Lemma metropolis_no_pass_witness :
  -2 <= 0
  /\ run p_steps half (-2) [one; quarter] = (([], []), [one; quarter]).
Proof.
  split; [lia|].
  apply (metropolis_no_pass add p_steps draw draw half (-2) [one; quarter]).
  lia.
Defined.

Lemma generator_calls_witness :
  0 <= 3
  /\ Z.of_nat (calls_q (snd (metropolis add p_steps (as_q draw)
                               (as_uniform draw) half 3
                               ([one; quarter; one; quarter; quarter; zero],
                                (O, O))))) = 3
  /\ Z.of_nat (calls_uniform (snd (metropolis add p_steps (as_q draw)
                               (as_uniform draw) half 3
                               ([one; quarter; one; quarter; quarter; zero],
                                (O, O))))) <= 3.
Proof.
  split; [lia|].
  pose proof (generator_calls add p_steps draw draw half 3
                [one; quarter; one; quarter; quarter; zero] ltac:(lia)) as H.
  cbv zeta in H. destruct H as (_ & _ & H3 & _ & H5).
  split; [exact H3 | exact H5].
Defined.

Lemma imputation_overwrites_y_witness :
  (Imputation.buffer (Imputation.Array 0) < length [[zero; half; one; two; three]])%nat
  /\ Imputation.contents
       (fst (Imputation.impute [[zero; half; one; two; three]]
               (Imputation.Array 0)))
       (Imputation.Array 0)
     = [zero; half; zero; zero; zero].
Proof.
  split; [simpl; lia|].
  etransitivity;
    [apply (imputation_overwrites_y [[zero; half; one; two; three]]
              (Imputation.Array 0)); simpl; lia
    |reflexivity].
Defined.

Lemma imputation_masks_zeros_witness :
  (Imputation.buffer (Imputation.Array 0) < length [[zero; half; one; two; three]])%nat
  /\ Imputation.mask
       (snd (Imputation.impute [[zero; half; one; two; three]]
               (Imputation.Array 0)))
     = [true; false; true; true; true]
  /\ Imputation.count_masked
       (Imputation.mask
          (snd (Imputation.impute [[zero; half; one; two; three]]
                  (Imputation.Array 0)))) = 4%nat.
Proof.
  split; [simpl; lia|].
  pose proof (imputation_masks_zeros [[zero; half; one; two; three]]
                (Imputation.Array 0) ltac:(simpl; lia)) as H.
  cbv zeta in H. destruct H as (H1 & _ & H3).
  split; [exact H1 | exact H3].
Defined.

Lemma mixture_data_picks_witness :
  Mixture.data [0; 1; 2; 1] [half; half; half; half]
    [two; two; two; two] [three; three; three; three]
  = [half; two; three; two].
Proof.
  etransitivity;
    [apply (mixture_data_picks 4 [0; 1; 2; 1] [half; half; half; half]
              [two; two; two; two] [three; three; three; three]);
     try reflexivity;
     repeat constructor; lia
    |reflexivity].
Defined.

End MoreRuns.
